(** * AwsS3 storage provider (src/providers/storage/awsS3.ts)

    A shallow embedding of the [AwsS3] class and the properties of its
    provider contract.  JavaScript strings are [string]s (one character per
    code unit, for code units below 256), [undefined]/[null] is [None], a thrown exception or rejected
    promise is the left injection of the outcome, and the instance fields,
    the [new S3] allocations and the remote service are threaded as an
    explicit state. *)

From Stdlib Require Import List String Ascii Bool Arith NArith Lia.
From Stdlib Require Import Init.Byte.
Import ListNotations.
Open Scope string_scope.

Set Implicit Arguments.

(** ** JavaScript strings *)

Module JS.

(** [s.split(sep)] for a one-character separator: the segments between
    the occurrences of [sep]; never the empty array. *)
Fixpoint split (sep : ascii) (s : string) : list string :=
  match s with
  | EmptyString => [EmptyString]
  | String c rest =>
      if Ascii.eqb c sep then EmptyString :: split sep rest
      else match split sep rest with
           | seg :: segs => String c seg :: segs
           | [] => [String c EmptyString]
           end
  end.

(** [s.endsWith(search)]: the [length search] code units that end [s] are
    [search]; false when [search] is longer than [s]. *)
Definition endsWith (s search : string) : bool :=
  let len := String.length s in
  let searchLength := String.length search in
  if Nat.leb searchLength len
  then String.eqb (substring (len - searchLength) searchLength s) search
  else false.

(** [!!v] for a value that is a string or [undefined]: the empty string
    and [undefined] are falsy. *)
Definition truthy (v : option string) : bool :=
  match v with
  | Some EmptyString => false
  | Some _ => true
  | None => false
  end.

(** [`${v}`] for a string or [undefined]. *)
Definition template (v : option string) : string :=
  match v with
  | Some s => s
  | None => "undefined"
  end.

(** [`${o}`] for a plain object: [Object.prototype.toString]. *)
Definition template_object {A : Type} (o : A) : string := "[object Object]".

(** [arr.slice(1)]. *)
Definition slice1 {A : Type} (arr : list A) : list A := skipn 1 arr.

(** The character [c] occurs in [s]. *)
Fixpoint occurs (c : ascii) (s : string) : Prop :=
  match s with
  | EmptyString => False
  | String a rest => a = c \/ occurs c rest
  end.

(** [Buffer.from(text)]: the UTF-8 bytes of [text], for code units below
    256 (one byte below 128, two bytes from 128 on). *)
Definition utf8_unit (c : ascii) : list byte :=
  let n := N_of_ascii c in
  if (n <? 128)%N then [byte_of_ascii c]
  else [byte_of_ascii (ascii_of_N (192 + n / 64));
        byte_of_ascii (ascii_of_N (128 + n mod 64))].

Fixpoint Buffer_from (text : string) : list byte :=
  match text with
  | EmptyString => []
  | String c rest => utf8_unit c ++ Buffer_from rest
  end.

(** [parts.join(sep)] for a one-character separator. *)
Fixpoint join (sep : ascii) (parts : list string) : string :=
  match parts with
  | [] => EmptyString
  | [x] => x
  | x :: rest => x ++ String sep (join sep rest)
  end.

(** Every part followed by the separator: what [join] puts before the
    last part. *)
Fixpoint lead (sep : ascii) (parts : list string) : string :=
  match parts with
  | [] => EmptyString
  | x :: rest => x ++ String sep (lead sep rest)
  end.

End JS.

(** ** Data model *)

(** What a method can throw: [new Error(message)], a [TypeError] of the
    runtime (a property read on [undefined]), or an error of the AWS SDK. *)
Inductive exn : Type :=
| Error (message : string)
| TypeError (message : string)
| AWSError (code message : string).

(** [IAwsS3Options]; a field that the caller left out is [None]. *)
Record IAwsS3Options : Type := {
  accessKeyId : option string;
  secretAccessKeyId : option string;
  bucket : option string;
  folder : option string;
  region : option string;
  apiVersion : option string
}.

(** The configuration object handed to [new S3(...)]. *)
Record S3Config : Type := {
  cfg_region : option string;
  cfg_apiVersion : option string;
  cfg_accessKeyId : option string;
  cfg_secretAccessKey : option string
}.

(** An S3 client object: its identity (the rank of its [new S3]) and the
    configuration it was built from. *)
Record S3 : Type := {
  s3_id : nat;
  s3_config : S3Config
}.

(** The request and the output of [listObjectsV2], and one listed object. *)
Record ListObjectsV2Request : Type := {
  Bucket : option string;
  Prefix : option string
}.

Record S3Object : Type := {
  Key : string;
  Size : N
}.

Record ListObjectsV2Output : Type := {
  Contents : option (list S3Object)
}.

(** The fields of an [AwsS3] instance. *)
Record AwsS3 : Type := {
  options : IAwsS3Options;
  S3Connection : option S3
}.

(** The object literal [getS3Connection] passes to [new S3]. *)
Definition s3_options (o : IAwsS3Options) : S3Config :=
  {| cfg_region := region o;
     cfg_apiVersion := apiVersion o;
     cfg_accessKeyId := accessKeyId o;
     cfg_secretAccessKey := secretAccessKeyId o |}.

(** The configuration of the client a call on the instance talks through:
    that of the stored client, or of the one the call is about to build. *)
Definition connection_config (t : AwsS3) : S3Config :=
  match S3Connection t with
  | Some conn => s3_config conn
  | None => s3_options (options t)
  end.

(** The request [listContainers] sends. *)
Definition listing_request (t : AwsS3) : ListObjectsV2Request :=
  {| Bucket := bucket (options t); Prefix := folder (options t) |}.

(** The outcome the contract calls Unsupported: the method threw the
    error that names an operation as not implemented. *)
Definition Unsupported (e : exn) : Prop :=
  exists operation suffix, e = Error (operation ++ " not implemented" ++ suffix).

(** [constructor(private options?: IAwsS3Options)]: reads
    [this.options.apiVersion] and stores the default when it is falsy. *)
Definition constructor (opts : option IAwsS3Options) : exn + AwsS3 :=
  match opts with
  | None => inl (TypeError "Cannot read property 'apiVersion' of undefined")
  | Some o =>
      let o' :=
        if negb (JS.truthy (apiVersion o))
        then {| accessKeyId := accessKeyId o;
                secretAccessKeyId := secretAccessKeyId o;
                bucket := bucket o;
                folder := folder o;
                region := region o;
                apiVersion := Some "latest" |}
        else o in
      inr {| options := o'; S3Connection := None |}
  end.

(** [getFileName(url)]: an array read out of range is [undefined]
    ([None]); [split] on [undefined] would throw. *)
Definition getFileName (url : string) : exn + option string :=
  let pathParts := JS.split "/" url in
  match nth_error pathParts (List.length pathParts - 1) with
  | None => inl (TypeError "Cannot read property 'split' of undefined")
  | Some segment => inr (nth_error (JS.split "?" segment) 0)
  end.

(** ** The listing, read off the raw entries *)

(** The raw entry that stands for the configured folder itself: its key is
    the folder, or the folder followed by the delimiter. *)
Definition is_folder_itself (folder : option string) (o : S3Object) : bool :=
  match folder with
  | Some f => String.eqb (Key o) f || String.eqb (Key o) (f ++ "/")
  | None => false
  end.

(** The entry [listContainers] makes of a listed object. *)
Definition entry_of (bucket : option string) (file : S3Object) : string :=
  JS.template bucket ++ JS.template_object file.

(** The decorated key of the contract: the bucket name followed by the
    key of the object. *)
Definition decorated_key (bucket : option string) (o : S3Object) : string :=
  JS.template bucket ++ Key o.

(** ** The provider's methods *)

Section Provider.

(** The remote service and the SDKs are outside the repository: the state
    of the outside world, what the constructor of the S3 client throws on a
    configuration it does not accept (an API version no service file
    satisfies), the answer of S3 to a [listObjectsV2] request of a client
    with a given configuration, and the blob SDK that [readText] names (its
    import is commented out in the source). *)
Variable World : Type.
Variable s3_new : S3Config -> option exn.
Variable s3_listObjectsV2 :
  S3Config -> ListObjectsV2Request -> World ->
  (exn + ListObjectsV2Output) * World.
Variables BlockBlobURL DownloadResponse IAsset : Type.
Variable blob_download :
  BlockBlobURL -> World -> (exn + DownloadResponse) * World.

(** What a method runs in: the instance ([this]), how many S3 clients
    [new S3] has built so far, and the outside world. *)
Record State : Type := {
  this : AwsS3;
  s3_constructed : nat;
  world : World
}.

(** A method body: an outcome (thrown exception or value) and the state
    it leaves.  An [await] is sequenced like any other step. *)
Definition M (A : Type) : Type := State -> (exn + A) * State.

Definition ret {A : Type} (a : A) : M A := fun s => (inr a, s).

Definition throw {A : Type} (e : exn) : M A := fun s => (inl e, s).

Definition bind {A B : Type} (m : M A) (k : A -> M B) : M B :=
  fun s =>
    match m s with
    | (inl e, s') => (inl e, s')
    | (inr a, s') => k a s'
    end.

Definition fmap {A B : Type} (f : A -> B) (m : M A) : M B :=
  bind m (fun a => ret (f a)).

Definition gets {A : Type} (f : AwsS3 -> A) : M A :=
  fun s => (inr (f (this s)), s).

Notation "x <- m ;; k" := (bind m (fun x => k))
  (at level 61, m at next level, right associativity).

(** [new S3(config)]: the constructor throws on a configuration it does
    not accept, and builds a fresh client object otherwise. *)
Definition new_S3 (config : S3Config) : M S3 :=
  fun s =>
    match s3_new config with
    | Some e => (inl e, s)
    | None =>
        (inr {| s3_id := s3_constructed s; s3_config := config |},
         {| this := this s;
            s3_constructed := S (s3_constructed s);
            world := world s |})
    end.

(** [this.S3Connection = conn]. *)
Definition set_S3Connection (conn : S3) : M unit :=
  fun s =>
    (inr tt,
     {| this := {| options := options (this s); S3Connection := Some conn |};
        s3_constructed := s3_constructed s;
        world := world s |}).

(** [conn.listObjectsV2(request).promise()], awaited. *)
Definition listObjectsV2 (conn : S3) (request : ListObjectsV2Request)
  : M ListObjectsV2Output :=
  fun s =>
    let (r, w) := s3_listObjectsV2 (s3_config conn) request (world s) in
    (r, {| this := this s; s3_constructed := s3_constructed s; world := w |}).

(** [blockBlobURL.download(Aborter.none, 0)], awaited. *)
Definition download (blockBlobURL : BlockBlobURL) : M DownloadResponse :=
  fun s =>
    let (r, w) := blob_download blockBlobURL (world s) in
    (r, {| this := this s; s3_constructed := s3_constructed s; world := w |}).

(** [getS3Connection()]: builds the client when the field is unset; when
    the constructor throws, the field stays unset. *)
Definition getS3Connection : M S3 :=
  current <- gets S3Connection ;;
  match current with
  | None =>
      o <- gets options ;;
      conn <- new_S3 (s3_options o) ;;
      _ <- set_S3Connection conn ;;
      ret conn
  | Some conn => ret conn
  end.

(** [getFullPath()]. *)
Definition getFullPath : M string :=
  o <- gets options ;;
  ret (JS.template (bucket o) ++ "/" ++ JS.template (folder o)).

(** [listContainers(path)] up to its local [filesOnly]: the request and
    the slice of its answer. *)
Definition filesOnly : M (list S3Object) :=
  bucket <- gets (fun t => bucket (options t)) ;;
  conn <- getS3Connection ;;
  prefix <- gets (fun t => folder (options t)) ;;
  listObjectsOutput <- listObjectsV2 conn {| Bucket := bucket; Prefix := prefix |} ;;
  match Contents listObjectsOutput with
  | None => throw (TypeError "Cannot read property 'slice' of undefined")
  | Some contents => ret (JS.slice1 contents)
  end.

(** [listContainers(path)]: the entries made of [filesOnly]. *)
Definition listContainers (path : option string) : M (list string) :=
  bucket <- gets (fun t => bucket (options t)) ;;
  filesOnly <- filesOnly ;;
  ret (map (fun file => JS.template bucket ++ JS.template_object file)
           filesOnly).

(** [listFiles(path, ext)]. *)
Definition listFiles (path : option string) (ext : option string)
  : M (list string) :=
  files <- listContainers None ;;
  ret (filter (fun file =>
                 if JS.truthy ext
                 then JS.endsWith file (JS.template ext)
                 else true)
              files).

(** [initialize()]; the [console.log] of the listing is not modelled. *)
Definition initialize : M unit :=
  files <- listContainers None ;;
  ret tt.

Definition getBlockBlobURL (blobName : string) : M BlockBlobURL :=
  throw (Error "getBlockBlobURL not implemented for AwsS3 provider").

Definition bodyToString (response : DownloadResponse) : M string :=
  throw (Error "bodyToString not implemented for AwsS3 provider").

(** [readText(blobName)]. *)
Definition readText (blobName : string) : M string :=
  blockBlobURL <- getBlockBlobURL blobName ;;
  downloadResponse <- download blockBlobURL ;;
  bodyToString downloadResponse.

(** The body of [readBinary(blobName)], over the method that
    [this.readText] resolves to. *)
Definition readBinary_via (readText : string -> M string)
  (blobName : string) : M (list byte) :=
  text <- readText blobName ;;
  ret (JS.Buffer_from text).

(** [readBinary(blobName)]: on an instance of the class, [this.readText]
    is [readText]. *)
Definition readBinary (blobName : string) : M (list byte) :=
  readBinary_via readText blobName.

(** The binary read as the contract words it: what the text read leaves,
    with the string it returns encoded again. *)
Definition readBinary_spec (text_read : string -> M string)
  (blobName : string) : M (list byte) :=
  fun s =>
    (match fst (text_read blobName s) with
     | inl e => inl e
     | inr text => inr (JS.Buffer_from text)
     end,
     snd (text_read blobName s)).

(** [writeText(blobName, content)]; [content] is a string or a Buffer. *)
Definition writeText (blobName : string) (content : string + list byte)
  : M unit :=
  throw (Error "writeText not implemented").

(** [writeBinary(blobName, content)]. *)
Definition writeBinary (blobName : string) (content : list byte) : M unit :=
  writeText blobName (inr content).

(** [deleteFile(blobName)]. *)
Definition deleteFile (blobName : string) : M unit :=
  throw (Error "deleteFile not implemented").

(** [createContainer(containerName)]. *)
Definition createContainer (containerName : string) : M unit :=
  throw (Error "createContainer not implemented for AwsS3 provider").

(** [deleteContainer(containerName)]. *)
Definition deleteContainer (containerName : string) : M unit :=
  throw (Error "deleteContainer not implemented for AwsS3 provider").

(** [getAssets(containerName)]. *)
Definition getAssets (containerName : option string) : M (list IAsset) :=
  throw (Error "getAssets not implemented for AwsS3 provider").

(** *** Calls on an instance *)

(** The public methods a caller can invoke on an instance, with their
    arguments, and the values they resolve to.  ([getAccountUrl] reads
    fields that [IAwsS3Options] does not declare and is left out.) *)
Inductive call : Type :=
| Initialize
| ReadText (blobName : string)
| ReadBinary (blobName : string)
| WriteText (blobName : string) (content : string + list byte)
| WriteBinary (blobName : string) (content : list byte)
| DeleteFile (blobName : string)
| ListFiles (path : option string) (ext : option string)
| ListContainers (path : option string)
| CreateContainer (containerName : string)
| DeleteContainer (containerName : string)
| GetAssets (containerName : option string)
| GetFileName (url : string).

Inductive value : Type :=
| VVoid
| VString (s : option string)
| VBuffer (b : list byte)
| VStrings (l : list string)
| VAssets (l : list IAsset).

Definition invoke (c : call) : M value :=
  match c with
  | Initialize => fmap (fun _ => VVoid) initialize
  | ReadText blobName => fmap (fun t => VString (Some t)) (readText blobName)
  | ReadBinary blobName => fmap VBuffer (readBinary blobName)
  | WriteText blobName content =>
      fmap (fun _ => VVoid) (writeText blobName content)
  | WriteBinary blobName content =>
      fmap (fun _ => VVoid) (writeBinary blobName content)
  | DeleteFile blobName => fmap (fun _ => VVoid) (deleteFile blobName)
  | ListFiles path ext => fmap VStrings (listFiles path ext)
  | ListContainers path => fmap VStrings (listContainers path)
  | CreateContainer containerName =>
      fmap (fun _ => VVoid) (createContainer containerName)
  | DeleteContainer containerName =>
      fmap (fun _ => VVoid) (deleteContainer containerName)
  | GetAssets containerName => fmap VAssets (getAssets containerName)
  | GetFileName url =>
      match getFileName url with
      | inl e => throw e
      | inr name => ret (VString name)
      end
  end.

(** The state after a caller has made the calls of [cs] one after the
    other, each awaited, whatever their outcomes. *)
Fixpoint invoke_all (cs : list call) (s : State) : State :=
  match cs with
  | [] => s
  | c :: rest => invoke_all rest (snd (invoke c s))
  end.

(** The data operations of the contract. *)
Definition data_operation (c : call) : bool :=
  match c with
  | ReadText _ | ReadBinary _ | WriteText _ _ | WriteBinary _ _
  | DeleteFile _ | ListFiles _ _ | ListContainers _ | GetAssets _ => true
  | _ => false
  end.

(** The operations this backend does not implement. *)
Definition unimplemented (c : call) : bool :=
  match c with
  | WriteText _ _ | WriteBinary _ _ | DeleteFile _
  | CreateContainer _ | DeleteContainer _ | GetAssets _ => true
  | _ => false
  end.

(** The calls that go through [listContainers]. *)
Definition lists (c : call) : bool :=
  match c with
  | Initialize | ListFiles _ _ | ListContainers _ => true
  | _ => false
  end.

(** *** Closed forms used in the statements *)

(** The error of [new S3] a call on the instance runs into when it asks
    for the connection: none when a client is stored. *)
Definition connect_failure (t : AwsS3) : option exn :=
  match S3Connection t with
  | Some _ => None
  | None => s3_new (s3_options (options t))
  end.

(** What [filesOnly] makes of the answer of the service. *)
Definition files_of (answer : exn + ListObjectsV2Output)
  : exn + list S3Object :=
  match answer with
  | inl e => inl e
  | inr output =>
      match Contents output with
      | None => inl (TypeError "Cannot read property 'slice' of undefined")
      | Some contents => inr (JS.slice1 contents)
      end
  end.

(** What [listContainers] makes of the answer of the service. *)
Definition listing_of (bucket : option string)
  (answer : exn + ListObjectsV2Output) : exn + list string :=
  match answer with
  | inl e => inl e
  | inr output =>
      match Contents output with
      | None => inl (TypeError "Cannot read property 'slice' of undefined")
      | Some contents => inr (map (entry_of bucket) (JS.slice1 contents))
      end
  end.

(** The client stored on the instance once a call has gone through
    [getS3Connection]. *)
Definition connection_after (s : State) : S3 :=
  match S3Connection (this s) with
  | Some conn => conn
  | None => {| s3_id := s3_constructed s;
               s3_config := s3_options (options (this s)) |}
  end.

Definition constructed_after (s : State) : nat :=
  match S3Connection (this s) with
  | Some _ => s3_constructed s
  | None => S (s3_constructed s)
  end.

(** A caller's view of a freshly constructed instance: no client built. *)
Definition fresh (t : AwsS3) (w : World) : State :=
  {| this := t; s3_constructed := 0; world := w |}.

End Provider.

(** ** A sample account *)

Module Sample.

Definition opts : IAwsS3Options :=
  {| accessKeyId := Some "AKIAEXAMPLE";
     secretAccessKeyId := Some "secret";
     bucket := Some "photos";
     folder := Some "img/";
     region := Some "us-east-1";
     apiVersion := None |}.

(** The same account, configured with the folder name alone. *)
Definition opts_img : IAwsS3Options :=
  {| accessKeyId := Some "AKIAEXAMPLE";
     secretAccessKeyId := Some "secret";
     bucket := Some "photos";
     folder := Some "img";
     region := Some "us-east-1";
     apiVersion := None |}.

(** Options without credentials: the SDK then looks them up itself. *)
Definition opts_no_credentials : IAwsS3Options :=
  {| accessKeyId := None;
     secretAccessKeyId := None;
     bucket := Some "photos";
     folder := Some "img/";
     region := Some "us-east-1";
     apiVersion := None |}.

Definition marker : S3Object := {| Key := "img/"; Size := 0 |}.
Definition a_png : S3Object := {| Key := "img/a.png"; Size := 1024 |}.
Definition b_txt : S3Object := {| Key := "img/b.txt"; Size := 12 |}.
Definition old_png : S3Object := {| Key := "img-old/x.png"; Size := 77 |}.

(** The objects of the bucket, in the order S3 lists keys (by bytes). *)
Definition objects : list S3Object := [old_png; marker; a_png; b_txt].

(** Does [p] start [s]? *)
Fixpoint startsWith (s p : string) : bool :=
  match p, s with
  | EmptyString, _ => true
  | String a p', String b s' => Ascii.eqb a b && startsWith s' p'
  | String _ _, EmptyString => false
  end.

(** The service: the world counts the requests served; a listing of the
    bucket returns the objects under the prefix, any other bucket is
    unknown. *)
Definition s3 (config : S3Config) (request : ListObjectsV2Request)
  (served : nat) : (exn + ListObjectsV2Output) * nat :=
  match Bucket request with
  | Some "photos" =>
      (inr {| Contents :=
                Some (filter (fun o => startsWith (Key o)
                                         (match Prefix request with
                                          | Some p => p
                                          | None => EmptyString
                                          end))
                             objects) |},
       S served)
  | _ => (inl (AWSError "NoSuchBucket" "The specified bucket does not exist"),
          S served)
  end.

(** The constructor of the client: the one version of the S3 API is
    2006-03-01, and a version constraint is met when it is not below it. *)
Definition sdk (config : S3Config) : option exn :=
  match cfg_apiVersion config with
  | Some version =>
      if String.leb "2006-03-01" version then None
      else Some (Error ("Could not find s3 API to satisfy version constraint `"
                        ++ version ++ "`"))
  | None => None
  end.

(** The blob SDK is never reached; any inhabitant will do. *)
Definition blob (u : unit) (served : nat) : (exn + unit) * nat :=
  (inr tt, served).

(** The instances [constructor] makes of the three option records. *)
Definition provider : AwsS3 :=
  {| options := {| accessKeyId := Some "AKIAEXAMPLE";
                   secretAccessKeyId := Some "secret";
                   bucket := Some "photos";
                   folder := Some "img/";
                   region := Some "us-east-1";
                   apiVersion := Some "latest" |};
     S3Connection := None |}.

Definition provider_img : AwsS3 :=
  {| options := {| accessKeyId := Some "AKIAEXAMPLE";
                   secretAccessKeyId := Some "secret";
                   bucket := Some "photos";
                   folder := Some "img";
                   region := Some "us-east-1";
                   apiVersion := Some "latest" |};
     S3Connection := None |}.

Definition provider_no_credentials : AwsS3 :=
  {| options := {| accessKeyId := None;
                   secretAccessKeyId := None;
                   bucket := Some "photos";
                   folder := Some "img/";
                   region := Some "us-east-1";
                   apiVersion := Some "latest" |};
     S3Connection := None |}.

(** Calls a caller makes before and after the first listing. *)
Definition early : list call :=
  [DeleteFile "img/a.png"; GetFileName "https://host/a/b/c.png?sig=xyz";
   ListFiles None (Some ".png")].

Definition late : list call :=
  [Initialize; ListContainers (Some "elsewhere"); ReadText "img/b.txt"].

(** An instance configured for a bucket the account does not have. *)
Definition provider_unknown_bucket : AwsS3 :=
  {| options := {| accessKeyId := Some "AKIAEXAMPLE";
                   secretAccessKeyId := Some "secret";
                   bucket := Some "archive";
                   folder := Some "img/";
                   region := Some "us-east-1";
                   apiVersion := Some "latest" |};
     S3Connection := None |}.

(** An instance that asks for a version of the API older than the
    service. *)
Definition provider_old_version : AwsS3 :=
  {| options := {| accessKeyId := Some "AKIAEXAMPLE";
                   secretAccessKeyId := Some "secret";
                   bucket := Some "photos";
                   folder := Some "img/";
                   region := Some "us-east-1";
                   apiVersion := Some "2000-01-01" |};
     S3Connection := None |}.

(** A service whose answer carries no [Contents]. *)
Definition s3_bare (config : S3Config) (request : ListObjectsV2Request)
  (served : nat) : (exn + ListObjectsV2Output) * nat :=
  (inr {| Contents := None |}, S served).

End Sample.

(** * Properties *)

(** ** Strings *)

Section StringFacts.

Lemma append_empty_r (s : string) : s ++ EmptyString = s.
Proof. induction s as [|c s IH]; simpl; [reflexivity | now rewrite IH]. Qed.

Lemma append_assoc (a b c : string) : (a ++ b) ++ c = a ++ (b ++ c).
Proof. induction a as [|x a IH]; simpl; [reflexivity | now rewrite IH]. Qed.

Lemma length_append (a b : string) :
  String.length (a ++ b) = String.length a + String.length b.
Proof. induction a as [|x a IH]; simpl; [reflexivity | now rewrite IH]. Qed.

Lemma substring_all (s : string) : substring 0 (String.length s) s = s.
Proof. induction s as [|c s IH]; simpl; [reflexivity | now rewrite IH]. Qed.

Lemma substring_after (p e : string) :
  substring (String.length p) (String.length e) (p ++ e) = e.
Proof. induction p as [|c p IH]; simpl; [apply substring_all | exact IH]. Qed.

Lemma substring_cut (s : string) :
  forall n m, n + m = String.length s ->
              s = substring 0 n s ++ substring n m s.
Proof.
  induction s as [|c s IH]; intros n m H; simpl in H.
  - assert (n = 0) by lia; assert (m = 0) by lia; subst; reflexivity.
  - destruct n as [|n].
    + simpl in H; subst m. simpl. now rewrite substring_all.
    + simpl. f_equal. apply IH. lia.
Qed.

(** [endsWith] is the suffix test. *)
Lemma endsWith_suffix (s e : string) :
  JS.endsWith s e = true <-> exists p, s = p ++ e.
Proof.
  unfold JS.endsWith. split.
  - destruct (Nat.leb (String.length e) (String.length s)) eqn:L;
      [|discriminate].
    apply Nat.leb_le in L. intros E. apply String.eqb_eq in E.
    exists (substring 0 (String.length s - String.length e) s).
    remember (String.length e) as m eqn:Hm.
    rewrite <- E. apply substring_cut. lia.
  - intros [p ->]. rewrite length_append.
    replace (Nat.leb _ _) with true by (symmetry; apply Nat.leb_le; lia).
    replace (String.length p + String.length e - String.length e)
      with (String.length p) by lia.
    rewrite substring_after. apply String.eqb_refl.
Qed.

Lemma endsWith_empty (s : string) : JS.endsWith s EmptyString = true.
Proof. apply endsWith_suffix. exists s. now rewrite append_empty_r. Qed.

Lemma split_not_nil (sep : ascii) (s : string) : JS.split sep s <> [].
Proof.
  destruct s as [|c s]; simpl; [discriminate|].
  destruct (Ascii.eqb c sep); [discriminate|].
  destruct (JS.split sep s); discriminate.
Qed.

(** Joining the segments gives the string back. *)
Lemma join_split (sep : ascii) (s : string) : JS.join sep (JS.split sep s) = s.
Proof.
  induction s as [|c s IH]; simpl; [reflexivity|].
  destruct (Ascii.eqb c sep) eqn:E.
  - apply Ascii.eqb_eq in E. subst c.
    pose proof (split_not_nil sep s) as N.
    destruct (JS.split sep s) as [|x l]; [congruence|].
    change (JS.join sep (EmptyString :: x :: l))
      with (String sep (JS.join sep (x :: l))).
    now rewrite IH.
  - pose proof (split_not_nil sep s) as N.
    destruct (JS.split sep s) as [|x l]; [congruence|].
    rewrite <- IH. destruct l; reflexivity.
Qed.

(** No segment holds the separator. *)
Lemma split_segments (sep : ascii) (s : string) :
  Forall (fun seg => ~ JS.occurs sep seg) (JS.split sep s).
Proof.
  induction s as [|c s IH]; simpl.
  - constructor; [intros []|constructor].
  - destruct (Ascii.eqb c sep) eqn:E.
    + constructor; [intros []|exact IH].
    + destruct (JS.split sep s) as [|x l].
      * constructor; [|constructor]. simpl. intros [->|[]].
        now rewrite Ascii.eqb_refl in E.
      * inversion IH as [|? ? Hx Hl]; subst. constructor; [|exact Hl].
        simpl. intros [->|H]; [now rewrite Ascii.eqb_refl in E | now apply Hx].
Qed.

Lemma join_snoc (sep : ascii) (init : list string) (seg : string) :
  JS.join sep (init ++ [seg]) = JS.lead sep init ++ seg.
Proof.
  induction init as [|x init IH]; [reflexivity|].
  destruct init as [|y init].
  - simpl. now rewrite append_assoc.
  - change (JS.join sep ((x :: y :: init) ++ [seg]))
      with (x ++ String sep (JS.join sep ((y :: init) ++ [seg]))).
    rewrite IH. change (JS.lead sep (x :: y :: init))
      with (x ++ String sep (JS.lead sep (y :: init))).
    now rewrite append_assoc.
Qed.

Lemma lead_shape (sep : ascii) (init : list string) :
  JS.lead sep init = EmptyString \/
  exists d, JS.lead sep init = d ++ String sep EmptyString.
Proof.
  induction init as [|x init IH]; simpl; [now left|right].
  destruct IH as [->|[d ->]].
  - now exists x.
  - exists (x ++ String sep d). now rewrite append_assoc.
Qed.

(** The last segment: what follows the last separator. *)
Lemma split_last (sep : ascii) (s : string) :
  exists dir seg,
    nth_error (JS.split sep s) (List.length (JS.split sep s) - 1) = Some seg /\
    s = dir ++ seg /\
    (dir = EmptyString \/ exists d, dir = d ++ String sep EmptyString) /\
    ~ JS.occurs sep seg.
Proof.
  pose proof (join_split sep s) as J.
  pose proof (split_segments sep s) as F.
  destruct (exists_last (split_not_nil sep s)) as [init [seg E]].
  rewrite E in *. exists (JS.lead sep init), seg. repeat split.
  - rewrite length_app, nth_error_app2; simpl; [|lia].
    now replace (List.length init + 1 - 1 - List.length init) with 0 by lia.
  - now rewrite <- J, join_snoc.
  - apply lead_shape.
  - apply Forall_app in F. destruct F as [_ F]. now inversion F.
Qed.

(** The first segment: what precedes the first separator. *)
Lemma split_first (sep : ascii) (s : string) :
  exists name,
    nth_error (JS.split sep s) 0 = Some name /\
    (s = name \/ exists rest, s = name ++ String sep rest) /\
    ~ JS.occurs sep name.
Proof.
  pose proof (join_split sep s) as J.
  pose proof (split_segments sep s) as F.
  pose proof (split_not_nil sep s) as N.
  destruct (JS.split sep s) as [|name l]; [congruence|].
  exists name. repeat split.
  - destruct l as [|y l]; [now left|right].
    exists (JS.join sep (y :: l)). now rewrite <- J.
  - now inversion F.
Qed.

End StringFacts.

(** ** File names *)

(** C5: for every URL, [getFileName] returns the segment after the last
    [/] of the URL, cut before its first [?]: the URL is a directory part
    (empty or ending in [/]) followed by a segment without [/], the segment
    is the returned name alone or the name, a [?] and a query, and the name
    holds no [?].  On [https://host/a/b/c.png?sig=xyz] it returns
    [c.png]. *)
Theorem getFileName_final_segment :
  (forall url : string,
      exists dir segment name : string,
        getFileName url = inr (Some name) /\
        url = dir ++ segment /\
        (dir = EmptyString \/ exists d, dir = d ++ "/") /\
        ~ JS.occurs "/" segment /\
        (segment = name \/ exists query, segment = name ++ "?" ++ query) /\
        ~ JS.occurs "?" name) /\
  getFileName "https://host/a/b/c.png?sig=xyz" = inr (Some "c.png").
Proof.
  split; [|reflexivity].
  intros url. unfold getFileName.
  destruct (split_last "/" url) as (dir & segment & Hnth & Hurl & Hdir & Hseg).
  destruct (split_first "?" segment) as (name & H0 & Hcut & Hname).
  exists dir, segment, name. rewrite Hnth, H0. auto 10.
Qed.

(** ** The provider *)

Section ProviderFacts.

Variable World : Type.
Variable sdk : S3Config -> option exn.
Variable s3 :
  S3Config -> ListObjectsV2Request -> World ->
  (exn + ListObjectsV2Output) * World.
Variables BlockBlobURL DownloadResponse IAsset : Type.
Variable blob : BlockBlobURL -> World -> (exn + DownloadResponse) * World.

Implicit Types (s : State World) (t : AwsS3) (c : call).

(** Unfolds a method down to the state it threads. *)
Ltac step_through :=
  unfold invoke, fmap, initialize, listFiles, listContainers, filesOnly,
    readBinary, readBinary_via, readText, getBlockBlobURL, bodyToString,
    download, writeBinary, writeText, deleteFile, createContainer,
    deleteContainer, getAssets, getFullPath, getS3Connection, listObjectsV2,
    set_S3Connection, new_S3, bind, gets, ret, throw in *;
  cbn [this s3_constructed world options S3Connection s3_config s3_id
       fst snd] in *.

(** Settles a closed form by cases on the stored client, the constructor
    and the answer of the service. *)
Ltac by_cases_on_the_request s :=
  unfold connect_failure, connection_config, listing_request,
    connection_after, constructed_after, listing_of, files_of;
  step_through;
  destruct s as [[? [?|]] ? ?]; cbn;
  try (match goal with
       | |- context [sdk ?cfg] => destruct (sdk cfg); cbn; [reflexivity|]
       end);
  match goal with
  | |- context [s3 ?cfg ?rq ?w] => destruct (s3 cfg rq w) as [[?|?] ?]
  end;
  cbn; try reflexivity;
  match goal with
  | |- context [Contents ?out] => destruct (Contents out); reflexivity
  end.

(** [filesOnly] in closed form: the error of the constructor when no
    client is stored and none can be built; else one request, through the
    stored or the newly built client, for the configured bucket and folder,
    and the answer without its first object. *)
Lemma filesOnly_eq s :
  filesOnly sdk s3 s =
  match connect_failure sdk (this s) with
  | Some e => (inl e, s)
  | None =>
      (files_of (fst (s3 (connection_config (this s))
                         (listing_request (this s)) (world s))),
       {| this := {| options := options (this s);
                     S3Connection := Some (connection_after s) |};
          s3_constructed := constructed_after s;
          world := snd (s3 (connection_config (this s))
                           (listing_request (this s)) (world s)) |})
  end.
Proof. by_cases_on_the_request s. Qed.

(** [listContainers] in closed form. *)
Lemma listContainers_eq (path : option string) s :
  listContainers sdk s3 path s =
  match connect_failure sdk (this s) with
  | Some e => (inl e, s)
  | None =>
      (listing_of (bucket (options (this s)))
         (fst (s3 (connection_config (this s)) (listing_request (this s))
                  (world s))),
       {| this := {| options := options (this s);
                     S3Connection := Some (connection_after s) |};
          s3_constructed := constructed_after s;
          world := snd (s3 (connection_config (this s))
                           (listing_request (this s)) (world s)) |})
  end.
Proof. by_cases_on_the_request s. Qed.

Lemma listFiles_eq (path ext : option string) s :
  listFiles sdk s3 path ext s =
  match listContainers sdk s3 None s with
  | (inl e, s') => (inl e, s')
  | (inr files, s') =>
      (inr (filter (fun file => if JS.truthy ext
                                then JS.endsWith file (JS.template ext)
                                else true) files), s')
  end.
Proof. reflexivity. Qed.

Lemma filter_all (A : Type) (l : list A) : filter (fun _ => true) l = l.
Proof. induction l as [|x l IH]; simpl; [reflexivity | now rewrite IH]. Qed.

(** ** Listing *)

(** [listContainers] never reads its path. *)
Lemma listContainers_path (p1 p2 : option string) s :
  listContainers sdk s3 p1 s = listContainers sdk s3 p2 s.
Proof. reflexivity. Qed.

(** C10: the path argument of [listFiles] and of [listContainers] has no
    effect: with the same state and extension, two paths give the same
    outcome and leave the same state; what is listed is the answer of the
    service to the request for the bucket and the folder of the options,
    once the instance has its client. *)
Theorem listing_ignores_path (p1 p2 ext : option string) s :
  listFiles sdk s3 p1 ext s = listFiles sdk s3 p2 ext s /\
  listContainers sdk s3 p1 s = listContainers sdk s3 p2 s /\
  fst (listContainers sdk s3 p1 s) =
    match connect_failure sdk (this s) with
    | Some e => inl e
    | None =>
        listing_of (bucket (options (this s)))
          (fst (s3 (connection_config (this s))
                   {| Bucket := bucket (options (this s));
                      Prefix := folder (options (this s)) |}
                   (world s)))
    end.
Proof.
  split; [reflexivity|].
  rewrite !listContainers_eq. split; [reflexivity|].
  now destruct (connect_failure sdk (this s)).
Qed.

(** C2, as the code has it: once the instance has its client and the
    service answers with objects, [listContainers] drops the first raw
    entry of the answer, whatever it stands for, and makes its entries, in
    the order of the answer, of every later raw entry; the entry of the
    folder itself is among the listed objects exactly when a raw entry
    after the first stands for the folder. *)
Theorem listContainers_drops_first_entry (path : option string) s
    (first : S3Object) (rest : list S3Object) (w' : World) :
  connect_failure sdk (this s) = None ->
  s3 (connection_config (this s)) (listing_request (this s)) (world s)
    = (inr {| Contents := Some (first :: rest) |}, w') ->
  fst (filesOnly sdk s3 s) = inr rest /\
  fst (listContainers sdk s3 path s) =
    inr (map (entry_of (bucket (options (this s)))) rest) /\
  ((exists listed o,
       fst (filesOnly sdk s3 s) = inr listed /\ In o listed /\
       is_folder_itself (folder (options (this s))) o = true) <->
   existsb (is_folder_itself (folder (options (this s)))) rest = true).
Proof.
  intros Hnew Hs3. rewrite filesOnly_eq, listContainers_eq, Hnew, Hs3. cbn.
  split; [reflexivity|]. split; [reflexivity|].
  rewrite existsb_exists. split.
  - intros (listed & o & Hl & Hin & Ho). injection Hl as <-. now exists o.
  - intros (o & Hin & Ho). now exists rest, o.
Qed.

(** ** Operations without an implementation *)

(** C3: [writeText], [writeBinary], [deleteFile], [createContainer],
    [deleteContainer] and [getAssets] fail on every input and in every
    state with the error that names the operation as not implemented, and
    leave the state as it was. *)
Theorem unimplemented_operations_unsupported s :
  (forall blobName content,
      exists e, writeText blobName content s = (inl e, s) /\ Unsupported e) /\
  (forall blobName content,
      exists e, writeBinary blobName content s = (inl e, s) /\ Unsupported e) /\
  (forall blobName,
      exists e, deleteFile blobName s = (inl e, s) /\ Unsupported e) /\
  (forall containerName,
      exists e, createContainer containerName s = (inl e, s) /\ Unsupported e) /\
  (forall containerName,
      exists e, deleteContainer containerName s = (inl e, s) /\ Unsupported e) /\
  (forall containerName,
      exists e, getAssets IAsset containerName s = (inl e, s) /\ Unsupported e).
Proof.
  repeat split; intros; eexists; (split; [reflexivity|]).
  - now exists "writeText", EmptyString.
  - now exists "writeText", EmptyString.
  - now exists "deleteFile", EmptyString.
  - now exists "createContainer", " for AwsS3 provider".
  - now exists "deleteContainer", " for AwsS3 provider".
  - now exists "getAssets", " for AwsS3 provider".
Qed.

(** ** Reading *)

(** C4: the binary read is the text read followed by the encoding of its
    string: whatever method [this.readText] resolves to, [readBinary]
    leaves the state that method leaves, fails with the error it fails
    with, and returns the bytes of [Buffer.from] on the string it returns
    (the bytes 68 and 69 for the text [hi]).  With the [readText] of the
    class, which stops on the error of [getBlockBlobURL] for every blob
    name, so does [readBinary]. *)
Theorem readBinary_through_readText
    (text_read : string -> M World string) (blobName : string) s :
  readBinary_via text_read blobName s = readBinary_spec text_read blobName s /\
  readBinary_via (fun _ => ret "hi") blobName s = (inr [x68; x69], s) /\
  readBinary blob blobName s = readBinary_spec (readText blob) blobName s /\
  readBinary blob blobName s =
    (inl (Error "getBlockBlobURL not implemented for AwsS3 provider"), s).
Proof.
  split; [|repeat split].
  unfold readBinary_via, readBinary_spec, bind, ret.
  now destruct (text_read blobName s) as [[e|text] s'].
Qed.

(** ** Calls in sequence *)

Lemma fmap_fst (A B : Type) (f : A -> B) (m : M World A) s :
  fst (fmap f m s) =
  match fst (m s) with
  | inl e => inl e
  | inr a => inr (f a)
  end.
Proof. unfold fmap, bind, ret. now destruct (m s) as [[e|a] s']. Qed.

Lemma fmap_snd (A B : Type) (f : A -> B) (m : M World A) s :
  snd (fmap f m s) = snd (m s).
Proof. unfold fmap, bind, ret. now destruct (m s) as [[e|a] s']. Qed.

Lemma initialize_fmap :
  initialize sdk s3 = fmap (fun _ => tt) (listContainers sdk s3 None).
Proof. reflexivity. Qed.

Lemma listFiles_fmap (path ext : option string) :
  listFiles sdk s3 path ext =
  fmap (filter (fun file => if JS.truthy ext
                            then JS.endsWith file (JS.template ext)
                            else true))
       (listContainers sdk s3 None).
Proof. reflexivity. Qed.

(** The state a call leaves: that of the one listing request for the
    calls that list, the state it started in for the others. *)
Lemma invoke_state c s :
  snd (invoke sdk s3 IAsset blob c s) =
  match c with
  | Initialize | ListFiles _ _ | ListContainers _ =>
      snd (listContainers sdk s3 None s)
  | _ => s
  end.
Proof.
  destruct c; cbn [invoke]; rewrite ?fmap_snd; try reflexivity.
  - now rewrite initialize_fmap, fmap_snd.
  - now rewrite listFiles_fmap, fmap_snd.
  - destruct (getFileName url); reflexivity.
Qed.

(** The outcome of a listing depends on the instance through its options,
    the configuration of its client and whether that client can be had. *)
Lemma listContainers_outcome (path : option string) (a b : State World) :
  options (this a) = options (this b) ->
  connection_config (this a) = connection_config (this b) ->
  connect_failure sdk (this a) = connect_failure sdk (this b) ->
  world a = world b ->
  fst (listContainers sdk s3 path a) = fst (listContainers sdk s3 path b) /\
  world (snd (listContainers sdk s3 path a)) =
  world (snd (listContainers sdk s3 path b)).
Proof.
  intros Ho Hc Hf Hw. rewrite !listContainers_eq, Hf.
  destruct (connect_failure sdk (this b)); cbn [fst snd world];
    [auto|]. unfold listing_request. now rewrite Ho, Hc, Hw.
Qed.

Lemma invoke_outcome c (a b : State World) :
  options (this a) = options (this b) ->
  connection_config (this a) = connection_config (this b) ->
  connect_failure sdk (this a) = connect_failure sdk (this b) ->
  world a = world b ->
  fst (invoke sdk s3 IAsset blob c a) = fst (invoke sdk s3 IAsset blob c b) /\
  world (snd (invoke sdk s3 IAsset blob c a)) =
  world (snd (invoke sdk s3 IAsset blob c b)).
Proof.
  intros Ho Hc Hf Hw.
  destruct (listContainers_outcome None a b Ho Hc Hf Hw) as [Hfst Hsnd].
  rewrite !invoke_state.
  destruct c; cbn [invoke]; try (split; [reflexivity | assumption]);
    try (rewrite ?initialize_fmap, ?listFiles_fmap, !fmap_fst;
         rewrite ?(proj1 (listContainers_outcome path a b Ho Hc Hf Hw));
         now rewrite ?Hfst).
  destruct (getFileName url); split; (reflexivity || assumption).
Qed.

(** [initialize] leaves the options alone; when it stores a client, it is
    one of the configuration the instance would have used anyway, and when
    the constructor throws it stores none. *)
Lemma initialize_instance s :
  options (this (snd (initialize sdk s3 s))) = options (this s) /\
  connection_config (this (snd (initialize sdk s3 s))) =
    connection_config (this s) /\
  connect_failure sdk (this (snd (initialize sdk s3 s))) =
    connect_failure sdk (this s).
Proof.
  rewrite initialize_fmap, fmap_snd, listContainers_eq.
  destruct (connect_failure sdk (this s)) eqn:E; [cbn [snd]; auto|].
  cbn [snd this options]. split; [reflexivity|].
  unfold connection_config, connection_after, connect_failure.
  cbn [S3Connection].
  destruct (S3Connection (this s)); split; reflexivity.
Qed.

(** The listing returns exactly when the client can be had and the
    service answers with contents. *)
Lemma listContainers_returns (path : option string) s :
  (exists files, fst (listContainers sdk s3 path s) = inr files) <->
  connect_failure sdk (this s) = None /\
  exists output contents,
    fst (s3 (connection_config (this s)) (listing_request (this s)) (world s))
      = inr output /\
    Contents output = Some contents.
Proof.
  rewrite listContainers_eq.
  destruct (connect_failure sdk (this s)) as [failure|]; cbn [fst].
  - split; [intros [files H]; discriminate H | intros [H _]; discriminate H].
  - destruct (fst (s3 _ _ _)) as [e|output]; cbn [listing_of].
    + split; [intros [files H]; discriminate H
             | intros [_ (o' & cs & H & _)]; discriminate H].
    + destruct (Contents output) as [contents|] eqn:HC.
      * split; [intros _; split; [reflexivity | now exists output, contents]
               | intros _; eexists; reflexivity].
      * split; [intros [files H]; discriminate H
               | intros [_ (o' & cs & H & Hcs)]; congruence].
Qed.

(** C1, as the code has it: no data operation looks at whether
    [initialize] ran.  On any instance and in any surroundings, a data
    operation has the same outcome and leaves the same world whether the
    instance went through [initialize] before (with whatever outcome) or
    not; [listFiles] and [listContainers] return exactly when the instance
    has its client or [new S3] accepts its configuration and the service
    answers the listing request with contents, and the other data
    operations fail with the error that names an operation as not
    implemented. *)
Theorem data_operations_ignore_initialize c t (n m : nat) (w0 w : World) :
  data_operation c = true ->
  let initialized :=
    this (snd (initialize sdk s3 {| this := t; s3_constructed := n; world := w0 |})) in
  let before :=
    invoke sdk s3 IAsset blob c {| this := t; s3_constructed := m; world := w |} in
  let after :=
    invoke sdk s3 IAsset blob c
      {| this := initialized; s3_constructed := m; world := w |} in
  fst after = fst before /\
  world (snd after) = world (snd before) /\
  match c with
  | ListFiles _ _ | ListContainers _ =>
      (exists v, fst before = inr v) <->
      (connect_failure sdk t = None /\
       exists output contents,
         fst (s3 (connection_config t) (listing_request t) w) = inr output /\
         Contents output = Some contents)
  | _ => exists e, fst before = inl e /\ Unsupported e
  end.
Proof.
  intros Hc initialized before after.
  destruct (initialize_instance {| this := t; s3_constructed := n; world := w0 |})
    as (Ho & Hcfg & Hf).
  split; [|split].
  - apply invoke_outcome; [exact Ho | exact Hcfg | exact Hf | reflexivity].
  - apply invoke_outcome; [exact Ho | exact Hcfg | exact Hf | reflexivity].
  - pose proof (listContainers_returns None
                  {| this := t; s3_constructed := m; world := w |}) as R.
    cbn [this world] in R.
    subst before. destruct c; try discriminate Hc; cbn [invoke].
    + eexists; split; [reflexivity|].
      now exists "getBlockBlobURL", " for AwsS3 provider".
    + eexists; split; [reflexivity|].
      now exists "getBlockBlobURL", " for AwsS3 provider".
    + eexists; split; [reflexivity|]. now exists "writeText", EmptyString.
    + eexists; split; [reflexivity|]. now exists "writeText", EmptyString.
    + eexists; split; [reflexivity|]. now exists "deleteFile", EmptyString.
    + rewrite <- R, listFiles_fmap, !fmap_fst.
      destruct (fst (listContainers sdk s3 None _)) as [e|files].
      * split; intros [v Hv]; discriminate Hv.
      * split; intros _; eexists; reflexivity.
    + rewrite <- R, fmap_fst, (listContainers_path path None).
      destruct (fst (listContainers sdk s3 None _)) as [e|files].
      * split; intros [v Hv]; discriminate Hv.
      * split; intros _; eexists; reflexivity.
    + eexists; split; [reflexivity|].
      now exists "getAssets", " for AwsS3 provider".
Qed.

(** ** Construction and the connection *)

(** C8, as the code has it: the provider validates nothing.  For every
    options object that is present, whichever of its fields are missing,
    construction succeeds, stores the fields as given (the API version
    defaulted when falsy) and builds no client; the first use hands the
    fields as they are to [new S3] and to the listing request, and its
    outcome is the error of [new S3] when the constructor does not accept
    them, and otherwise what the service makes of them. *)
Theorem constructor_accepts_any_options (o : IAwsS3Options) :
  exists t,
    constructor (Some o) = inr t /\
    S3Connection t = None /\
    accessKeyId (options t) = accessKeyId o /\
    secretAccessKeyId (options t) = secretAccessKeyId o /\
    bucket (options t) = bucket o /\
    folder (options t) = folder o /\
    region (options t) = region o /\
    apiVersion (options t) =
      (if JS.truthy (apiVersion o) then apiVersion o else Some "latest") /\
    forall (path : option string) (w : World),
      let config := {| cfg_region := region o;
                       cfg_apiVersion := apiVersion (options t);
                       cfg_accessKeyId := accessKeyId o;
                       cfg_secretAccessKey := secretAccessKeyId o |} in
      fst (listContainers sdk s3 path (fresh t w)) =
      match sdk config with
      | Some e => inl e
      | None =>
          listing_of (bucket o)
            (fst (s3 config {| Bucket := bucket o; Prefix := folder o |} w))
      end.
Proof.
  unfold constructor. eexists. split; [reflexivity|].
  cbn [S3Connection options].
  destruct (JS.truthy (apiVersion o)); cbn [negb];
    repeat (split; [reflexivity|]);
    intros path w; cbv zeta; rewrite listContainers_eq;
    unfold connect_failure, s3_options; cbn;
    match goal with |- context [sdk ?cfg] => now destruct (sdk cfg) end.
Qed.

Lemma invoke_all_app (pre post : list call) s :
  invoke_all sdk s3 IAsset blob (pre ++ post) s =
  invoke_all sdk s3 IAsset blob post (invoke_all sdk s3 IAsset blob pre s).
Proof.
  revert s. induction pre as [|c pre IH]; intros s; cbn; [reflexivity|].
  apply IH.
Qed.

(** A call on an instance that holds a client keeps that client and
    builds none. *)
Lemma invoke_keeps_connection c s (conn : S3) :
  S3Connection (this s) = Some conn ->
  S3Connection (this (snd (invoke sdk s3 IAsset blob c s))) = Some conn /\
  s3_constructed (snd (invoke sdk s3 IAsset blob c s)) = s3_constructed s /\
  options (this (snd (invoke sdk s3 IAsset blob c s))) = options (this s).
Proof.
  intros H. rewrite invoke_state, listContainers_eq.
  unfold connect_failure, connection_after, constructed_after. rewrite H.
  destruct c; cbn; auto.
Qed.

(** A call on an instance that holds no client builds one exactly when
    it lists and the constructor accepts the configuration; when the
    constructor throws, the call fails with its error and leaves the state
    as it was. *)
Lemma invoke_builds_connection c s :
  S3Connection (this s) = None ->
  options (this (snd (invoke sdk s3 IAsset blob c s))) = options (this s) /\
  match c with
  | Initialize | ListFiles _ _ | ListContainers _ =>
      match sdk (s3_options (options (this s))) with
      | None =>
          S3Connection (this (snd (invoke sdk s3 IAsset blob c s))) =
            Some {| s3_id := s3_constructed s;
                    s3_config := s3_options (options (this s)) |} /\
          s3_constructed (snd (invoke sdk s3 IAsset blob c s)) =
            S (s3_constructed s)
      | Some e =>
          fst (invoke sdk s3 IAsset blob c s) = inl e /\
          snd (invoke sdk s3 IAsset blob c s) = s
      end
  | _ =>
      S3Connection (this (snd (invoke sdk s3 IAsset blob c s))) = None /\
      s3_constructed (snd (invoke sdk s3 IAsset blob c s)) = s3_constructed s
  end.
Proof.
  intros H. rewrite invoke_state.
  destruct c; cbn [invoke];
    rewrite ?initialize_fmap, ?listFiles_fmap, ?fmap_fst,
      ?(listContainers_path path None), ?listContainers_eq;
    unfold connect_failure, connection_after, constructed_after;
    rewrite ?H; try (destruct (sdk (s3_options (options (this s)))));
    cbn; auto.
Qed.

Lemma invoke_all_keeps_connection (cs : list call) s (conn : S3) :
  S3Connection (this s) = Some conn ->
  S3Connection (this (invoke_all sdk s3 IAsset blob cs s)) = Some conn /\
  s3_constructed (invoke_all sdk s3 IAsset blob cs s) = s3_constructed s.
Proof.
  revert s. induction cs as [|c cs IH]; intros s H; cbn; [auto|].
  destruct (invoke_keeps_connection c s H) as (H1 & H2 & _).
  destruct (IH _ H1) as [H3 H4]. split; [exact H3 | congruence].
Qed.

(** From a fresh instance, the calls made so far built a client exactly
    when one is stored, and the options are those of the construction. *)
Lemma invoke_all_fresh (cs : list call) t (w : World) :
  S3Connection t = None ->
  let s := invoke_all sdk s3 IAsset blob cs (fresh t w) in
  options (this s) = options t /\
  match S3Connection (this s) with
  | Some _ => s3_constructed s = 1
  | None => s3_constructed s = 0
  end.
Proof.
  intros Ht.
  assert (G : forall s0 : State World,
             match S3Connection (this s0) with
             | Some _ => s3_constructed s0 = 1
             | None => s3_constructed s0 = 0
             end ->
             let s := invoke_all sdk s3 IAsset blob cs s0 in
             options (this s) = options (this s0) /\
             match S3Connection (this s) with
             | Some _ => s3_constructed s = 1
             | None => s3_constructed s = 0
             end).
  { induction cs as [|c cs IH]; intros s0 H0; cbn; [auto|].
    destruct (S3Connection (this s0)) as [conn|] eqn:E.
    - destruct (invoke_keeps_connection c s0 E) as (H1 & H2 & H3).
      destruct (IH (snd (invoke sdk s3 IAsset blob c s0))) as [H4 H5].
      + rewrite H1. congruence.
      + split; [cbn in H4; congruence | exact H5].
    - destruct (invoke_builds_connection c s0 E) as (H1 & H2).
      destruct (IH (snd (invoke sdk s3 IAsset blob c s0))) as [H4 H5].
      + destruct c;
          try destruct (sdk (s3_options (options (this s0))));
          destruct H2 as [H2 H2'];
          rewrite ?H2'; rewrite ?E; rewrite ?H2; congruence.
      + split; [cbn in H4; congruence | exact H5]. }
  apply (G (fresh t w)). cbn. now rewrite Ht.
Qed.

(** C9: an instance holds at most one client.  Construction builds none;
    however many calls follow, at most one client is ever built; once a
    client is stored, every later call keeps that very client, builds no
    other, and [getS3Connection] hands it back; while none is stored, a
    call that lists builds and stores the first one when [new S3] accepts
    the configuration (when it throws, the call fails with its error and
    no client is built or stored), and any other call builds none. *)
Theorem one_connection_per_instance (o : IAwsS3Options) t (w : World)
    (pre post : list call) c :
  constructor (Some o) = inr t ->
  let mid := invoke_all sdk s3 IAsset blob pre (fresh t w) in
  let final := invoke_all sdk s3 IAsset blob (pre ++ post) (fresh t w) in
  S3Connection t = None /\
  s3_constructed final <= 1 /\
  match S3Connection (this mid) with
  | Some conn =>
      s3_constructed mid = 1 /\
      S3Connection (this final) = Some conn /\
      s3_constructed final = 1 /\
      getS3Connection sdk mid = (inr conn, mid)
  | None =>
      s3_constructed mid = 0 /\
      match c with
      | Initialize | ListFiles _ _ | ListContainers _ =>
          match sdk (s3_options (options t)) with
          | None =>
              S3Connection (this (snd (invoke sdk s3 IAsset blob c mid))) =
                Some {| s3_id := 0; s3_config := s3_options (options t) |} /\
              s3_constructed (snd (invoke sdk s3 IAsset blob c mid)) = 1
          | Some e =>
              fst (invoke sdk s3 IAsset blob c mid) = inl e /\
              snd (invoke sdk s3 IAsset blob c mid) = mid
          end
      | _ =>
          S3Connection (this (snd (invoke sdk s3 IAsset blob c mid))) = None /\
          s3_constructed (snd (invoke sdk s3 IAsset blob c mid)) = 0
      end
  end.
Proof.
  intros Hnew mid final.
  assert (Ht : S3Connection t = None).
  { unfold constructor in Hnew. injection Hnew as <-. reflexivity. }
  split; [exact Ht|].
  destruct (invoke_all_fresh pre t w Ht) as [Hopt Hmid]. fold mid in Hopt, Hmid.
  destruct (invoke_all_fresh (pre ++ post) t w Ht) as [_ Hfinal].
  fold final in Hfinal.
  split; [destruct (S3Connection (this final)); lia|].
  destruct (S3Connection (this mid)) as [conn|] eqn:E.
  - destruct (invoke_all_keeps_connection post mid E) as [H1 H2].
    subst final. rewrite invoke_all_app. fold mid.
    repeat split; [exact Hmid | exact H1 | congruence |].
    unfold getS3Connection, bind, gets, ret. now rewrite E.
  - split; [exact Hmid|].
    destruct (invoke_builds_connection c mid E) as [_ H].
    rewrite Hmid, Hopt in H. exact H.
Qed.

(** Every entry of a listing is the bucket name followed by the text a
    plain object has in a template literal. *)
Lemma listContainers_entries (path : option string) s (entries : list string) :
  fst (listContainers sdk s3 path s) = inr entries ->
  Forall (fun entry =>
            entry = JS.template (bucket (options (this s))) ++ "[object Object]")
         entries.
Proof.
  rewrite listContainers_eq.
  destruct (connect_failure sdk (this s)); [discriminate|].
  cbn [fst]. unfold listing_of.
  destruct (fst (s3 _ _ _)) as [e|output]; [discriminate|].
  destruct (Contents output) as [contents|]; [|discriminate].
  intros H. injection H as <-. apply Forall_forall.
  intros entry Hin. apply in_map_iff in Hin. now destruct Hin as (o & <- & _).
Qed.

End ProviderFacts.

(** ** The sample account *)

(** C1: a provider that never ran [initialize] lists the files of the
    bucket, and its [writeText] fails as it does on any instance. *)
Lemma uninitialized_listing_succeeds :
  constructor (Some Sample.opts) = inr Sample.provider /\
  S3Connection Sample.provider = None /\
  fst (listFiles Sample.sdk Sample.s3 None None (fresh Sample.provider 0)) =
    inr ["photos[object Object]"; "photos[object Object]"] /\
  fst (writeText "img/a.png" (inl "hello") (fresh Sample.provider 0)) =
    inl (Error "writeText not implemented").
Proof. repeat split. Qed.

(** An instance that asks for the version 2000-01-01 of the API: every
    listing stops in [new S3], sends no request and stores no client, and
    the next call runs into the same error. *)
Lemma old_version_is_refused :
  initialize Sample.sdk Sample.s3 (fresh Sample.provider_old_version 0) =
    (inl (Error "Could not find s3 API to satisfy version constraint `2000-01-01`"),
     fresh Sample.provider_old_version 0) /\
  invoke_all Sample.sdk Sample.s3 unit Sample.blob
    [Initialize; ListFiles None None; ListContainers None]
    (fresh Sample.provider_old_version 0) =
    fresh Sample.provider_old_version 0.
Proof. split; reflexivity. Qed.

Lemma data_operations_ignore_initialize_witness :
  data_operation (ListFiles None (Some "]")) = true /\
  fst (invoke Sample.sdk Sample.s3 unit Sample.blob (ListFiles None (Some "]"))
         {| this := this (snd (initialize Sample.sdk Sample.s3
                                 {| this := Sample.provider;
                                    s3_constructed := 0;
                                    world := 0 |}));
            s3_constructed := 1;
            world := 1 |}) =
  fst (invoke Sample.sdk Sample.s3 unit Sample.blob (ListFiles None (Some "]"))
         {| this := Sample.provider; s3_constructed := 1; world := 1 |}).
Proof.
  split; [reflexivity|].
  apply (data_operations_ignore_initialize Sample.sdk Sample.s3 unit Sample.blob
           (ListFiles None (Some "]")) Sample.provider 0 1 0 1 eq_refl).
Defined.

(** C2: configured with the folder name [img], the service lists
    [img-old/x.png] before the folder's own [img/]; the first entry goes,
    and the object of the folder itself is among those the entries are
    made of. *)
Lemma listContainers_keeps_folder_entry :
  constructor (Some Sample.opts_img) = inr Sample.provider_img /\
  fst (Sample.s3 (connection_config Sample.provider_img)
         (listing_request Sample.provider_img) 0) =
    inr {| Contents := Some [Sample.old_png; Sample.marker;
                             Sample.a_png; Sample.b_txt] |} /\
  fst (filesOnly Sample.sdk Sample.s3 (fresh Sample.provider_img 0)) =
    inr [Sample.marker; Sample.a_png; Sample.b_txt] /\
  fst (listContainers Sample.sdk Sample.s3 None (fresh Sample.provider_img 0)) =
    inr (map (entry_of (Some "photos"))
             [Sample.marker; Sample.a_png; Sample.b_txt]) /\
  is_folder_itself (folder (options Sample.provider_img)) Sample.marker = true.
Proof. repeat split. Qed.

Lemma listContainers_drops_first_entry_witness :
  connect_failure Sample.sdk Sample.provider = None /\
  Sample.s3 (connection_config Sample.provider)
    (listing_request Sample.provider) 0 =
    (inr {| Contents := Some [Sample.marker; Sample.a_png; Sample.b_txt] |}, 1) /\
  fst (filesOnly Sample.sdk Sample.s3 (fresh Sample.provider 0)) =
    inr [Sample.a_png; Sample.b_txt] /\
  fst (listContainers Sample.sdk Sample.s3 (Some "anywhere")
         (fresh Sample.provider 0)) =
    inr (map (entry_of (Some "photos")) [Sample.a_png; Sample.b_txt]) /\
  ((exists listed o,
       fst (filesOnly Sample.sdk Sample.s3 (fresh Sample.provider 0)) =
         inr listed /\
       In o listed /\ is_folder_itself (Some "img/") o = true) <->
   existsb (is_folder_itself (Some "img/")) [Sample.a_png; Sample.b_txt] = true).
Proof.
  split; [reflexivity|]. split; [reflexivity|].
  exact (listContainers_drops_first_entry Sample.sdk Sample.s3
           (Some "anywhere") (fresh Sample.provider 0) (w' := 1)
           eq_refl eq_refl).
Defined.

(** C6: on the sample account the service lists [img/a.png], whose key
    ends with [.png], yet [listFiles] with the extension [.png] returns
    nothing: the filter runs on entries that have lost the keys, where the
    same filter on the decorated keys keeps the entry of [img/a.png]. *)
Lemma listFiles_misses_listed_png :
  fst (Sample.s3 (connection_config Sample.provider)
         (listing_request Sample.provider) 0) =
    inr {| Contents := Some [Sample.marker; Sample.a_png; Sample.b_txt] |} /\
  JS.endsWith (Key Sample.a_png) ".png" = true /\
  fst (listFiles Sample.sdk Sample.s3 (Some "img/") (Some ".png")
         (fresh Sample.provider 0)) = inr [] /\
  filter (fun file => JS.endsWith file ".png")
         (map (decorated_key (Some "photos")) [Sample.a_png; Sample.b_txt]) =
    ["photosimg/a.png"] /\
  fst (listFiles Sample.sdk Sample.s3 (Some "img/") None
         (fresh Sample.provider 0)) =
    inr ["photos[object Object]"; "photos[object Object]"].
Proof. repeat split. Qed.

(** C7: on the sample account the entries of the listing are the bucket
    name followed by [[object Object]], not by the keys of the objects. *)
Lemma listContainers_entries_lose_key :
  fst (listContainers Sample.sdk Sample.s3 None (fresh Sample.provider 0)) =
    inr ["photos[object Object]"; "photos[object Object]"] /\
  map (decorated_key (Some "photos")) [Sample.a_png; Sample.b_txt] =
    ["photosimg/a.png"; "photosimg/b.txt"] /\
  fst (listContainers Sample.sdk Sample.s3 None (fresh Sample.provider 0)) <>
    inr (map (decorated_key (Some "photos")) [Sample.a_png; Sample.b_txt]).
Proof. repeat split. discriminate. Qed.

(** C8: without an options object the constructor stops on the property
    read; with options that lack the credentials it succeeds, and so does
    the first listing. *)
Lemma missing_options_unchecked :
  constructor None =
    inl (TypeError "Cannot read property 'apiVersion' of undefined") /\
  constructor (Some Sample.opts_no_credentials) =
    inr Sample.provider_no_credentials /\
  fst (listContainers Sample.sdk Sample.s3 None (fresh Sample.provider_no_credentials 0)) =
    inr ["photos[object Object]"; "photos[object Object]"].
Proof. repeat split. Qed.

Lemma one_connection_per_instance_witness :
  constructor (Some Sample.opts) = inr Sample.provider /\
  s3_constructed
    (invoke_all Sample.sdk Sample.s3 unit Sample.blob (Sample.early ++ Sample.late)
       (fresh Sample.provider 0)) <= 1.
Proof.
  split; [reflexivity|].
  exact (proj1 (proj2 (one_connection_per_instance Sample.sdk Sample.s3 unit Sample.blob
                         0 Sample.early Sample.late Initialize
                         (o := Sample.opts) (t := Sample.provider) eq_refl))).
Defined.

(** * Further properties *)

(** ** File names *)

Section FileNameFacts.

Lemma occurs_append (c : ascii) (a b : string) :
  JS.occurs c (a ++ b) <-> JS.occurs c a \/ JS.occurs c b.
Proof.
  induction a as [|x a IH]; simpl; [tauto|]. rewrite IH. tauto.
Qed.

(** Without the separator there is one segment, the string. *)
Lemma split_without (sep : ascii) (s : string) :
  ~ JS.occurs sep s -> JS.split sep s = [s].
Proof.
  induction s as [|c s IH]; simpl; intros H; [reflexivity|].
  destruct (Ascii.eqb c sep) eqn:E.
  - apply Ascii.eqb_eq in E. tauto.
  - rewrite IH by tauto. reflexivity.
Qed.

(** Splitting distributes over a separator. *)
Lemma split_append (sep : ascii) (a b : string) :
  JS.split sep (a ++ String sep b) = (JS.split sep a ++ JS.split sep b)%list.
Proof.
  induction a as [|c a IH]; simpl.
  - now rewrite Ascii.eqb_refl.
  - destruct (Ascii.eqb c sep); rewrite IH; [reflexivity|].
    pose proof (split_not_nil sep a) as N.
    destruct (JS.split sep a) as [|x l]; [congruence | reflexivity].
Qed.

Lemma last_of_append (A : Type) (l1 l2 : list A) :
  l2 <> [] ->
  nth_error (l1 ++ l2)%list (List.length (l1 ++ l2)%list - 1) =
  nth_error l2 (List.length l2 - 1).
Proof.
  intros N. destruct l2 as [|x l2]; [congruence|].
  rewrite length_app, nth_error_app2 by (simpl; lia).
  f_equal. simpl. lia.
Qed.

(** What [getFileName] returns on a string without [/]. *)
Lemma getFileName_segment (segment : string) :
  ~ JS.occurs "/" segment ->
  getFileName segment = inr (nth_error (JS.split "?" segment) 0).
Proof.
  intros H. unfold getFileName. now rewrite (@split_without _ segment H).
Qed.

(** X1: only what follows the last [/] counts: putting any text and a [/]
    in front of a URL does not change the file name, so a [/] inside the
    query makes the name come from the query. *)
Theorem getFileName_after_slash (a b : string) :
  getFileName (a ++ "/" ++ b) = getFileName b.
Proof.
  unfold getFileName. change ("/" ++ b) with (String "/" b).
  rewrite split_append, last_of_append by apply split_not_nil.
  reflexivity.
Qed.

(** X2: the file name of a file name is itself: [getFileName] always
    returns a name, and applied to that name it returns it again. *)
Theorem getFileName_idempotent (url : string) :
  exists name,
    getFileName url = inr (Some name) /\
    getFileName name = inr (Some name).
Proof.
  unfold getFileName at 1.
  destruct (split_last "/" url) as (dir & segment & Hnth & _ & _ & Hseg).
  destruct (split_first "?" segment) as (name & H0 & Hcut & Hname).
  exists name. rewrite Hnth, H0. split; [reflexivity|].
  assert (Hslash : ~ JS.occurs "/" name).
  { intros Hin. apply Hseg. destruct Hcut as [->|[rest ->]]; [exact Hin|].
    apply occurs_append. now left. }
  rewrite (@getFileName_segment name Hslash), (@split_without _ name Hname).
  reflexivity.
Qed.

(** X3: a URL built from a directory, a name free of [/] and [?], and a
    query free of [/] gives the name back, with or without the query and
    with or without the directory; with the empty name (a URL that ends in
    [/]) the file name is the empty string. *)
Theorem getFileName_of_parts (dir name query : string) :
  ~ JS.occurs "/" name ->
  ~ JS.occurs "?" name ->
  ~ JS.occurs "/" query ->
  getFileName (dir ++ "/" ++ name ++ "?" ++ query) = inr (Some name) /\
  getFileName (dir ++ "/" ++ name) = inr (Some name) /\
  getFileName (name ++ "?" ++ query) = inr (Some name) /\
  getFileName name = inr (Some name) /\
  getFileName (dir ++ "/") = inr (Some EmptyString).
Proof.
  intros Hn1 Hn2 Hq.
  assert (Hplain : getFileName name = inr (Some name)).
  { rewrite (@getFileName_segment name Hn1), (@split_without _ name Hn2).
    reflexivity. }
  assert (Hquery : getFileName (name ++ "?" ++ query) = inr (Some name)).
  { rewrite getFileName_segment.
    - change ("?" ++ query) with (String "?" query).
      rewrite split_append, (@split_without _ name Hn2). reflexivity.
    - intros H. apply occurs_append in H. destruct H as [H|H]; [tauto|].
      simpl in H. destruct H as [H|H]; [discriminate H | tauto]. }
  repeat split.
  - unfold getFileName in *. change ("/" ++ name ++ "?" ++ query)
      with (String "/" (name ++ "?" ++ query)).
    rewrite split_append, last_of_append by apply split_not_nil.
    exact Hquery.
  - unfold getFileName in *. change ("/" ++ name) with (String "/" name).
    rewrite split_append, last_of_append by apply split_not_nil.
    exact Hplain.
  - exact Hquery.
  - exact Hplain.
  - unfold getFileName. change "/" with (String "/" EmptyString) at 1.
    rewrite split_append, last_of_append by apply split_not_nil.
    reflexivity.
Qed.

End FileNameFacts.

(** ** Construction *)

(** X4: construction settles the API version once: the stored version is
    never falsy, a version given by the caller is kept with the whole
    record, a missing or empty one becomes [latest], and constructing
    again from the stored options gives the same instance. *)
Theorem constructor_defaults_once (o : IAwsS3Options) :
  exists t,
    constructor (Some o) = inr t /\
    JS.truthy (apiVersion (options t)) = true /\
    constructor (Some (options t)) = inr t /\
    (if JS.truthy (apiVersion o)
     then options t = o
     else apiVersion (options t) = Some "latest").
Proof.
  unfold constructor.
  destruct (JS.truthy (apiVersion o)) eqn:E; cbn [negb].
  - exists {| options := o; S3Connection := None |}. cbn [options].
    rewrite E. cbn [negb]. auto.
  - eexists. split; [reflexivity|]. cbn. auto.
Qed.

(** ** Listing and the state of an instance *)

Section ListingFacts.

Variable World : Type.
Variable sdk : S3Config -> option exn.
Variable s3 :
  S3Config -> ListObjectsV2Request -> World ->
  (exn + ListObjectsV2Output) * World.
Variables BlockBlobURL DownloadResponse IAsset : Type.
Variable blob : BlockBlobURL -> World -> (exn + DownloadResponse) * World.

Implicit Types (s : State World) (t : AwsS3) (c : call).

Lemma listContainers_any_path (p1 p2 : option string) s :
  listContainers sdk s3 p1 s = listContainers sdk s3 p2 s.
Proof. now rewrite !listContainers_eq. Qed.

Lemma append_inv_head (a x y : string) : a ++ x = a ++ y -> x = y.
Proof.
  induction a as [|c a IH]; simpl; intros H; [exact H|].
  injection H as H. now apply IH.
Qed.

Lemma filter_constant (A : Type) (keep : A -> bool) (x : A) (l : list A) :
  Forall (fun y => y = x) l ->
  filter keep l = if keep x then l else [].
Proof.
  induction l as [|y l IH]; intros F; simpl; [now destruct (keep x)|].
  inversion F as [|? ? Hy Hl]; subst. rewrite (IH Hl).
  now destruct (keep x).
Qed.

(** X5: once the instance has its client, a listing has one entry fewer
    than the service listed: none when the service lists nothing or a
    single object (a folder holding one file and no entry of its own lists
    as empty). *)
Theorem listContainers_one_fewer (path : option string) s
    (contents : list S3Object) (w' : World) :
  connect_failure sdk (this s) = None ->
  s3 (connection_config (this s)) (listing_request (this s)) (world s)
    = (inr {| Contents := Some contents |}, w') ->
  exists entries,
    fst (listContainers sdk s3 path s) = inr entries /\
    List.length entries = List.length contents - 1 /\
    (entries = [] <-> List.length contents <= 1) /\
    world (snd (listContainers sdk s3 path s)) = w'.
Proof.
  intros Hnew H. rewrite listContainers_eq, Hnew, H. cbn.
  eexists. split; [reflexivity|].
  destruct contents as [|first [|second rest]]; cbn;
    rewrite ?length_map; repeat split; auto; try lia; discriminate.
Qed.

(** X6: [initialize], [listFiles] and [listContainers] stand and fall
    together: they leave the same state, fail with the same error, and
    [initialize] returns exactly when the listing does, also when the
    listing is empty. *)
Theorem listing_operations_agree (path ext : option string) s :
  snd (listFiles sdk s3 path ext s) = snd (listContainers sdk s3 path s) /\
  snd (initialize sdk s3 s) = snd (listContainers sdk s3 path s) /\
  (forall e, fst (listContainers sdk s3 path s) = inl e <->
             fst (listFiles sdk s3 path ext s) = inl e) /\
  (forall e, fst (listContainers sdk s3 path s) = inl e <->
             fst (initialize sdk s3 s) = inl e) /\
  ((exists files, fst (listContainers sdk s3 path s) = inr files) <->
   fst (initialize sdk s3 s) = inr tt).
Proof.
  rewrite (listContainers_any_path path None).
  rewrite listFiles_fmap, initialize_fmap, !fmap_snd, !fmap_fst.
  destruct (fst (listContainers sdk s3 None s)) as [e0|files].
  - split; [reflexivity|]. split; [reflexivity|].
    split; [intros e; split; congruence|].
    split; [intros e; split; congruence|].
    split; [intros [files H]; discriminate H | discriminate].
  - split; [reflexivity|]. split; [reflexivity|].
    split; [intros e; split; discriminate|].
    split; [intros e; split; discriminate|].
    split; [reflexivity | intros _; now exists files].
Qed.

(** X7: once the instance has its client, an error of the service comes
    out of the three listing operations as it is; the client built for the
    request stays on the instance, and the next call goes through it. *)
Theorem service_error_passes_through (path ext : option string) s
    (e : exn) (w' : World) :
  connect_failure sdk (this s) = None ->
  s3 (connection_config (this s)) (listing_request (this s)) (world s)
    = (inl e, w') ->
  let s' := snd (listContainers sdk s3 path s) in
  fst (listContainers sdk s3 path s) = inl e /\
  fst (listFiles sdk s3 path ext s) = inl e /\
  fst (initialize sdk s3 s) = inl e /\
  world s' = w' /\
  exists conn,
    S3Connection (this s') = Some conn /\
    s3_config conn = connection_config (this s) /\
    getS3Connection sdk s' = (inr conn, s').
Proof.
  intros Hnew H s'. subst s'.
  rewrite listFiles_fmap, initialize_fmap, !fmap_fst.
  rewrite (listContainers_any_path None path), listContainers_eq, Hnew, H.
  cbn.
  repeat (split; [reflexivity|]).
  eexists. split; [reflexivity|]. split; [|reflexivity].
  unfold connection_after, connection_config.
  destruct (S3Connection (this s)); reflexivity.
Qed.

(** X8: once the instance has its client, when the answer of the service
    carries no [Contents], the three listing operations fail with the
    [TypeError] of the read on [undefined]; the request was made and the
    client is stored. *)
Theorem missing_contents_is_a_TypeError (path ext : option string) s
    (w' : World) :
  connect_failure sdk (this s) = None ->
  s3 (connection_config (this s)) (listing_request (this s)) (world s)
    = (inr {| Contents := None |}, w') ->
  let failure := TypeError "Cannot read property 'slice' of undefined" in
  fst (listContainers sdk s3 path s) = inl failure /\
  fst (listFiles sdk s3 path ext s) = inl failure /\
  fst (initialize sdk s3 s) = inl failure /\
  world (snd (listContainers sdk s3 path s)) = w' /\
  S3Connection (this (snd (listContainers sdk s3 path s))) <> None.
Proof.
  intros Hnew H failure. subst failure.
  rewrite listFiles_fmap, initialize_fmap, !fmap_fst.
  rewrite (listContainers_any_path None path), listContainers_eq, Hnew, H.
  cbn.
  repeat (split; [reflexivity|]). discriminate.
Qed.

(** X9: no call changes the options, the configuration of the client the
    instance talks through, or the request it sends: every listing of an
    instance asks for the same bucket and folder with the same
    credentials. *)
Theorem calls_keep_configuration (cs : list call) s :
  let s' := invoke_all sdk s3 IAsset blob cs s in
  options (this s') = options (this s) /\
  connection_config (this s') = connection_config (this s) /\
  listing_request (this s') = listing_request (this s).
Proof.
  revert s. induction cs as [|c cs IH]; intros s; cbn; [auto|].
  destruct (IH (snd (invoke sdk s3 IAsset blob c s))) as (H1 & H2 & H3).
  assert (G : options (this (snd (invoke sdk s3 IAsset blob c s))) = options (this s)
              /\ connection_config (this (snd (invoke sdk s3 IAsset blob c s)))
                 = connection_config (this s)).
  { assert (L : options (this (snd (listContainers sdk s3 None s)))
                = options (this s)
                /\ connection_config (this (snd (listContainers sdk s3 None s)))
                   = connection_config (this s)).
    { rewrite listContainers_eq.
      unfold connect_failure, connection_config, connection_after.
      destruct (S3Connection (this s)) eqn:E; cbn; rewrite ?E; auto.
      destruct (sdk (s3_options (options (this s)))); cbn; rewrite ?E; auto. }
    rewrite invoke_state. destruct c; auto. }
  destruct G as [G1 G2]. cbn in H1, H2, H3.
  rewrite H1, H2, H3. unfold listing_request. rewrite G1. auto.
Qed.

(** X10: only the calls that list change anything: the state after a
    sequence of calls is the state after its listing calls alone, and the
    state after as many [initialize] calls. *)
Theorem only_listing_calls_change_state (cs : list call) s :
  invoke_all sdk s3 IAsset blob cs s =
    invoke_all sdk s3 IAsset blob (filter lists cs) s /\
  invoke_all sdk s3 IAsset blob cs s =
    invoke_all sdk s3 IAsset blob
      (repeat Initialize (List.length (filter lists cs))) s.
Proof.
  revert s. induction cs as [|c cs IH]; intros s; [split; reflexivity|].
  cbn [invoke_all filter].
  destruct (IH (snd (invoke sdk s3 IAsset blob c s))) as [H1 H2].
  destruct (lists c) eqn:L.
  - cbn [invoke_all List.length repeat]. split; [exact H1|].
    rewrite H2. f_equal. rewrite !invoke_state.
    destruct c; (reflexivity || discriminate L).
  - assert (E : snd (invoke sdk s3 IAsset blob c s) = s).
    { rewrite invoke_state. destruct c; (reflexivity || discriminate L). }
    rewrite E in H1, H2 |- *. split; assumption.
Qed.

(** X11: the blob SDK is never called: whatever its [download] would do,
    every call has the same outcome and leaves the same state. *)
Theorem download_is_never_reached
    (blob1 blob2 : BlockBlobURL -> World -> (exn + DownloadResponse) * World)
    c s :
  invoke sdk s3 IAsset blob1 c s = invoke sdk s3 IAsset blob2 c s.
Proof. destruct c; reflexivity. Qed.

(** X12: the extension filter is all or nothing: every entry of a listing
    is the same text, the bucket name followed by [[object Object]], so
    [listFiles] returns the whole listing when the extension is falsy or
    ends that text, and the empty list otherwise. *)
Theorem listFiles_all_or_nothing (path ext : option string) s
    (files : list string) s' :
  listContainers sdk s3 None s = (inr files, s') ->
  listFiles sdk s3 path ext s =
    (inr (if negb (JS.truthy ext)
             || JS.endsWith
                  (JS.template (bucket (options (this s))) ++ "[object Object]")
                  (JS.template ext)
          then files else []),
     s').
Proof.
  intros H. rewrite listFiles_eq, H.
  assert (F : fst (listContainers sdk s3 None s) = inr files) by now rewrite H.
  apply listContainers_entries in F.
  rewrite (filter_constant _ F).
  now destruct (JS.truthy ext).
Qed.

(** X13: the full path of the instance, bucket, [/] and folder, is never
    an entry of its listing. *)
Theorem listing_never_holds_full_path (path : option string) s
    (entries : list string) :
  fst (listContainers sdk s3 path s) = inr entries ->
  exists root,
    getFullPath s = (inr root, s) /\
    root = JS.template (bucket (options (this s))) ++ "/" ++
           JS.template (folder (options (this s))) /\
    ~ In root entries.
Proof.
  intros H. eexists. split; [reflexivity|]. split; [reflexivity|].
  apply listContainers_entries in H. rewrite Forall_forall in H.
  intros Hin. apply H in Hin. apply append_inv_head in Hin. discriminate Hin.
Qed.

(** X14: the empty extension filters nothing: [listFiles] with the empty
    string, like [listFiles] without extension, is [listContainers],
    failures included. *)
Theorem empty_extension_lists_everything (path p : option string) s :
  listFiles sdk s3 path (Some EmptyString) s = listContainers sdk s3 p s /\
  listFiles sdk s3 path None s = listContainers sdk s3 p s.
Proof.
  rewrite !listFiles_eq, (listContainers_any_path p None).
  destruct (listContainers sdk s3 None s) as [[e|files] s']; cbn [JS.truthy];
    rewrite ?filter_all; split; reflexivity.
Qed.

End ListingFacts.

(** ** The sample account, continued *)

Ltac no_occurrence :=
  cbn; intros H; repeat (destruct H as [H|H]; [discriminate H|]); exact H.

Lemma getFileName_of_parts_witness :
  ~ JS.occurs "/" "c.png" /\
  ~ JS.occurs "?" "c.png" /\
  ~ JS.occurs "/" "sig=xyz" /\
  getFileName ("https://host/a/b" ++ "/" ++ "c.png" ++ "?" ++ "sig=xyz") =
    inr (Some "c.png").
Proof.
  assert (H1 : ~ JS.occurs "/" "c.png") by no_occurrence.
  assert (H2 : ~ JS.occurs "?" "c.png") by no_occurrence.
  assert (H3 : ~ JS.occurs "/" "sig=xyz") by no_occurrence.
  repeat (split; [assumption|]).
  exact (proj1 (getFileName_of_parts "https://host/a/b" "c.png" "sig=xyz"
                  H1 H2 H3)).
Defined.

Lemma listContainers_one_fewer_witness :
  connect_failure Sample.sdk Sample.provider = None /\
  Sample.s3 (connection_config Sample.provider)
    (listing_request Sample.provider) 0 =
    (inr {| Contents := Some [Sample.marker; Sample.a_png; Sample.b_txt] |}, 1) /\
  exists entries,
    fst (listContainers Sample.sdk Sample.s3 None (fresh Sample.provider 0)) = inr entries /\
    List.length entries = 3 - 1 /\
    (entries = [] <-> 3 <= 1) /\
    world (snd (listContainers Sample.sdk Sample.s3 None (fresh Sample.provider 0))) = 1.
Proof.
  split; [reflexivity|]. split; [reflexivity|].
  exact (listContainers_one_fewer Sample.sdk Sample.s3 None
           (fresh Sample.provider 0) (w' := 1) eq_refl eq_refl).
Defined.

Lemma service_error_passes_through_witness :
  connect_failure Sample.sdk Sample.provider_unknown_bucket = None /\
  Sample.s3 (connection_config Sample.provider_unknown_bucket)
    (listing_request Sample.provider_unknown_bucket) 0 =
    (inl (AWSError "NoSuchBucket" "The specified bucket does not exist"), 1) /\
  fst (listFiles Sample.sdk Sample.s3 None (Some ".png")
         (fresh Sample.provider_unknown_bucket 0)) =
    inl (AWSError "NoSuchBucket" "The specified bucket does not exist").
Proof.
  split; [reflexivity|]. split; [reflexivity|].
  exact (proj1 (proj2 (service_error_passes_through Sample.sdk Sample.s3 None
                         (Some ".png")
                         (fresh Sample.provider_unknown_bucket 0)
                         (w' := 1) eq_refl eq_refl))).
Defined.

Lemma missing_contents_is_a_TypeError_witness :
  connect_failure Sample.sdk Sample.provider = None /\
  Sample.s3_bare (connection_config Sample.provider)
    (listing_request Sample.provider) 0 =
    (inr {| Contents := None |}, 1) /\
  fst (initialize Sample.sdk Sample.s3_bare (fresh Sample.provider 0)) =
    inl (TypeError "Cannot read property 'slice' of undefined").
Proof.
  split; [reflexivity|]. split; [reflexivity|].
  exact (proj1 (proj2 (proj2 (missing_contents_is_a_TypeError Sample.sdk
                                Sample.s3_bare None None
                                (fresh Sample.provider 0)
                                (w' := 1) eq_refl eq_refl)))).
Defined.

Lemma listFiles_all_or_nothing_witness :
  listContainers Sample.sdk Sample.s3 None (fresh Sample.provider 0) =
    (inr ["photos[object Object]"; "photos[object Object]"],
     snd (listContainers Sample.sdk Sample.s3 None (fresh Sample.provider 0))) /\
  listFiles Sample.sdk Sample.s3 None (Some ".png") (fresh Sample.provider 0) =
    (inr (if negb (JS.truthy (Some ".png"))
             || JS.endsWith
                  (JS.template (bucket (options Sample.provider))
                   ++ "[object Object]")
                  (JS.template (Some ".png"))
          then ["photos[object Object]"; "photos[object Object]"] else []),
     snd (listContainers Sample.sdk Sample.s3 None (fresh Sample.provider 0))).
Proof.
  split; [reflexivity|].
  exact (listFiles_all_or_nothing Sample.sdk Sample.s3 None (Some ".png")
           (fresh Sample.provider 0) eq_refl).
Defined.

Lemma listing_never_holds_full_path_witness :
  fst (listContainers Sample.sdk Sample.s3 None (fresh Sample.provider 0)) =
    inr ["photos[object Object]"; "photos[object Object]"] /\
  exists root,
    getFullPath (fresh Sample.provider 0) = (inr root, fresh Sample.provider 0) /\
    root = "photos" ++ "/" ++ "img/" /\
    ~ In root ["photos[object Object]"; "photos[object Object]"].
Proof.
  split; [reflexivity|].
  exact (listing_never_holds_full_path Sample.sdk Sample.s3 None
           (fresh Sample.provider 0) eq_refl).
Defined.
